(** * Kobuki driver core: a shallow embedding of [kobuki_driver/kobuki.hpp]

    The header declares the driver class [Kobuki] with its data members, its
    inline constructor, destructor and the two accessors [connected] and
    [isEnabled]; every other member function is declared there and defined
    elsewhere.  The destructor ends the object's lifetime, its members
    included, so there is no object after it to state a property of, and it
    is not embedded.  The embedding follows the header member by member:

    - [unsigned short], [short], [int], [unsigned int] members are [Z];
    - [double] members are exact rationals ([Qc]): every finite double is a
      rational number, and the two initialisers that are not exactly
      representable ([tick_to_mm], [tick_to_rad]) are rounded the way the
      literal in the source is rounded;
    - [bool] members are [bool], [std::string] members are [string];
    - the object is a record, a member function is a function on the record,
      and [const] members are write-protected by [invoke]. *)

From Stdlib Require Import ZArith QArith Qcanon Lia List Bool String.
Import ListNotations.

Local Open Scope Z_scope.

(** ** C++ floating-point literals *)

Module Cpp.

(** The value held by a [double]. *)
Definition double : Type := Qc.

(** Nearest integer to [num / den] ([den > 0]), ties to the even one. *)
Definition round_half_even (num den : Z) : Z :=
  let m := num / den in
  let r := num mod den in
  match (2 * r) ?= den with
  | Lt => m
  | Gt => m + 1
  | Eq => if Z.even m then m else m + 1
  end.

(** Exponent [e] of the unit in the last place of [n / d] ([n, d > 0]) in a
    binary format with [prec] significant bits whose smallest exponent is
    [emin]: [2^(prec-1) <= (n/d) / 2^e < 2^prec] unless [emin] cuts in. *)
Definition binary_exponent (prec emin n d : Z) : Z :=
  let a := Z.log2 n - Z.log2 d in
  let below := if a <? 0 then n * 2 ^ (- a) <? d else n <? d * 2 ^ a in
  Z.max emin ((if below then a - 1 else a) - (prec - 1)).

(** Round-to-nearest-even of the rational [q] to a binary floating-point
    format ([prec] bits of precision, least exponent [emin]); overflow to
    infinity is not modelled, the literals of the header are far from it. *)
Definition round_binary (prec emin : Z) (q : Q) : Q :=
  let n := Qnum q in
  let d := Zpos (Qden q) in
  if n =? 0 then 0%Q
  else
    let e := binary_exponent prec emin (Z.abs n) d in
    let m := if e <? 0 then round_half_even (Z.abs n * 2 ^ (- e)) d
             else round_half_even (Z.abs n) (d * 2 ^ e) in
    let v := if e <? 0 then Qmake m (Z.to_pos (2 ^ (- e)))
             else inject_Z (m * 2 ^ e) in
    Qred (if n <? 0 then Qopp v else v).

(** A literal with the [f] suffix, [0.0845813406577f]: a [float] (IEEE
    binary32, 24 bits, least exponent -149), widened to [double] without
    change of value when it initialises a [double]. *)
Definition float_literal (q : Q) : double := Q2Qc (round_binary 24 (-149) q).

(** A literal without suffix, [0.0845813406577]: a [double] (IEEE binary64). *)
Definition double_literal (q : Q) : double := Q2Qc (round_binary 53 (-1074) q).

End Cpp.

(** ** The serial device *)

Module Link.

(** Modelled from the spec: [ecl::Serial], the type of the member [serial],
    whose header is not in the sources.  The spec gives the link collaborator
    [open], [close], [read], [write] and [is_open]; the state kept here is
    whether the device is open, the bytes written and not yet flushed, and
    the bytes that went out.  None of its operations is modelled. *)
Record Serial : Type := mkSerial {
  is_open : bool;
  unflushed : list Z;
  wire : list Z
}.

End Link.

(** ** The driver class *)

Module Driver.

Import Cpp.

(** The data members of [class Kobuki] (kobuki.hpp:150-201).  Members of
    class type whose headers are not in the sources (stopwatch, the sensor
    modules, the command, the packet finder and its buffers, the signals,
    the kinematics pointer) take no part in what follows and are left out. *)
Record Kobuki : Type := mkKobuki {
  last_timestamp : Z;            (* unsigned short *)
  last_velocity_left : double;
  last_velocity_right : double;
  last_diff_time : double;
  last_tick_left : Z;            (* unsigned short *)
  last_tick_right : Z;           (* unsigned short *)
  last_rad_left : double;
  last_rad_right : double;
  last_mm_left : double;
  last_mm_right : double;
  v : Z;                         (* short *)
  w : Z;                         (* short *)
  radius : Z;                    (* short *)
  speed : Z;                     (* short *)
  bias : double;                 (* wheelbase, wheel_to_wheel, in [m] *)
  wheel_radius : double;
  imu_heading_offset : Z;        (* int *)
  device_type : string;
  protocol_version : string;
  is_connected : bool;           (* True if there's a serial/usb connection open. *)
  is_running : bool;
  is_enabled : bool;
  count : Z;                     (* unsigned int *)
  tick_to_mm : double;           (* const *)
  tick_to_rad : double;          (* const *)
  serial : Link.Serial;
  is_simulation : bool
}.

(** [Kobuki::Kobuki()] (kobuki.hpp:80-86).  The member initialiser list sets
    seven members.  The two [std::string] members are default-constructed,
    which makes them empty; [serial] is what the default constructor of
    [ecl::Serial] makes it, a library outside the sources, and is left as
    [raw] has it.  The scalar members off the list are not initialised:
    they are what the storage [raw] held. *)
Definition Kobuki_ctor (raw : Kobuki) : Kobuki :=
  {| last_timestamp := last_timestamp raw;
     last_velocity_left := Q2Qc 0.0;
     last_velocity_right := Q2Qc 0.0;
     last_diff_time := last_diff_time raw;
     last_tick_left := last_tick_left raw;
     last_tick_right := last_tick_right raw;
     last_rad_left := last_rad_left raw;
     last_rad_right := last_rad_right raw;
     last_mm_left := last_mm_left raw;
     last_mm_right := last_mm_right raw;
     v := v raw;
     w := w raw;
     radius := radius raw;
     speed := speed raw;
     bias := bias raw;
     wheel_radius := wheel_radius raw;
     imu_heading_offset := imu_heading_offset raw;
     device_type := EmptyString;
     protocol_version := EmptyString;
     is_connected := false;
     is_running := false;
     is_enabled := false;
     count := count raw;
     tick_to_mm := float_literal 0.0845813406577;
     tick_to_rad := float_literal 0.00201384144460884;
     serial := serial raw;
     is_simulation := is_simulation raw |}.

(** [bool connected() const] (kobuki.hpp:100-103). *)
Definition connected (k : Kobuki) : bool := is_connected k.

(** [bool isEnabled() const] (kobuki.hpp:104-107). *)
Definition isEnabled (k : Kobuki) : bool := is_enabled k.

(** The body of a member function, as the object it leaves behind. *)
Definition member_function : Type := Kobuki -> Kobuki.

(** [const double tick_to_mm, tick_to_rad;] (kobuki.hpp:174): a [const]
    member is initialised by the constructor and no member function can
    assign to it.  [invoke f k] is the object after the call of [f] on [k]:
    the body's writes, the two [const] members as they were. *)
Definition invoke (f : member_function) (k : Kobuki) : Kobuki :=
  let k' := f k in
  {| last_timestamp := last_timestamp k';
     last_velocity_left := last_velocity_left k';
     last_velocity_right := last_velocity_right k';
     last_diff_time := last_diff_time k';
     last_tick_left := last_tick_left k';
     last_tick_right := last_tick_right k';
     last_rad_left := last_rad_left k';
     last_rad_right := last_rad_right k';
     last_mm_left := last_mm_left k';
     last_mm_right := last_mm_right k';
     v := v k';
     w := w k';
     radius := radius k';
     speed := speed k';
     bias := bias k';
     wheel_radius := wheel_radius k';
     imu_heading_offset := imu_heading_offset k';
     device_type := device_type k';
     protocol_version := protocol_version k';
     is_connected := is_connected k';
     is_running := is_running k';
     is_enabled := is_enabled k';
     count := count k';
     tick_to_mm := tick_to_mm k;
     tick_to_rad := tick_to_rad k;
     serial := serial k';
     is_simulation := is_simulation k' |}.

(** The object after a sequence of member function calls, first call first. *)
Definition lifetime (calls : list member_function) (k : Kobuki) : Kobuki :=
  fold_left (fun obj f => invoke f obj) calls k.

(** Storage with every scalar zero and a closed serial device: one concrete
    piece of memory a constructor can run on. *)
Definition zeroed : Kobuki :=
  {| last_timestamp := 0;
     last_velocity_left := Q2Qc 0;
     last_velocity_right := Q2Qc 0;
     last_diff_time := Q2Qc 0;
     last_tick_left := 0;
     last_tick_right := 0;
     last_rad_left := Q2Qc 0;
     last_rad_right := Q2Qc 0;
     last_mm_left := Q2Qc 0;
     last_mm_right := Q2Qc 0;
     v := 0;
     w := 0;
     radius := 0;
     speed := 0;
     bias := Q2Qc 0;
     wheel_radius := Q2Qc 0;
     imu_heading_offset := 0;
     device_type := EmptyString;
     protocol_version := EmptyString;
     is_connected := false;
     is_running := false;
     is_enabled := false;
     count := 0;
     tick_to_mm := Q2Qc 0;
     tick_to_rad := Q2Qc 0;
     serial := {| Link.is_open := false; Link.unflushed := []; Link.wire := [] |};
     is_simulation := false |}.

(** The connection states of the spec's data model, read off the flags. *)
Inductive ConnectionState : Type := Disconnected | Connected | Enabled.

Definition connection_state (k : Kobuki) : ConnectionState :=
  if is_connected k
  then (if is_enabled k then Enabled else Connected)
  else Disconnected.

End Driver.

(** ** Odometry *)

Module Odometry.

Import Cpp Driver.

Local Open Scope Qc_scope.

(** Modelled from the spec: the tick delta of [Kobuki::updateOdometry],
    declared at kobuki.hpp:134 and defined outside the sources.  "Compute
    tick delta = (current - previous) mod 2^16, choosing the signed
    representative in range [-2^15, 2^15)"; the counters are the
    [unsigned short] members [last_tick_left] and [last_tick_right]. *)
Definition tick_delta (current previous : Z) : Z :=
  let d := ((current - previous) mod 2 ^ 16)%Z in
  if (d <? 2 ^ 15)%Z then d else (d - 2 ^ 16)%Z.

(** [ecl::Pose2D<double>], the type of [pose_update]: a planar
    displacement and a change of heading. *)
Record Pose2D : Type := mkPose2D {
  x : double;
  y : double;
  heading : double
}.

Definition pose_opp (p : Pose2D) : Pose2D :=
  {| x := - x p; y := - y p; heading := - heading p |}.

(** Modelled from the spec: "Convert tick delta to linear distance per
    wheel via tick_to_mm". *)
Definition wheel_distance (k : Kobuki) (ticks : Z) : double :=
  tick_to_mm k * Q2Qc (inject_Z ticks).

(** Modelled from the spec: differential-drive forward kinematics, "linear
    velocity = mean of wheel linear velocities; angular velocity = (right -
    left) distance / wheelbase", integrated over one cycle with the heading
    at the start of the interval.  Over the cycle a velocity times the
    elapsed time is a distance, so the displacement is the mean of the two
    wheel distances and the change of heading is their difference over the
    wheelbase; in the robot's frame at the start of the cycle the heading
    is zero and the displacement lies on the x axis. *)
Definition forward (wheelbase d_left d_right : double) : Pose2D :=
  {| x := (d_left + d_right) / Q2Qc 2;
     y := Q2Qc 0;
     heading := (d_right - d_left) / wheelbase |}.

(** Modelled from the spec: the pose delta of one accepted odometry cycle
    whose previous tick counts are [prev_left], [prev_right] (the members
    [last_tick_left], [last_tick_right]) and whose current ones are
    [cur_left], [cur_right]. *)
Definition pose_delta (k : Kobuki) (prev_left prev_right cur_left cur_right : Z) : Pose2D :=
  forward (bias k)
          (wheel_distance k (tick_delta cur_left prev_left))
          (wheel_distance k (tick_delta cur_right prev_right)).

End Odometry.

(** ** The 16-bit overlay *)

Module Sint16.

(** The order in which a machine stores the two bytes of a [short]; the
    header does not choose one. *)
Inductive ByteOrder : Type := LittleEndian | BigEndian.

(** [union union_sint16 { short word; unsigned char byte[2]; }]
    (kobuki.hpp:52-56): one 16-bit storage seen as a signed word or as two
    bytes.  The storage is the two bytes, [byte[0]] and [byte[1]]. *)
Record union_sint16 : Type := mk_union_sint16 {
  byte_0 : Z;                    (* unsigned char byte[0] *)
  byte_1 : Z                     (* unsigned char byte[1] *)
}.

(** What an [unsigned char] can hold. *)
Definition is_uchar (b : Z) : Prop := 0 <= b < 256.

Definition well_formed (u : union_sint16) : Prop :=
  is_uchar (byte_0 u) /\ is_uchar (byte_1 u).

(** The storage read as an unsigned 16-bit number. *)
Definition unsigned_word (o : ByteOrder) (u : union_sint16) : Z :=
  match o with
  | LittleEndian => byte_0 u + 256 * byte_1 u
  | BigEndian => byte_1 u + 256 * byte_0 u
  end.

(** Reading the member [word]: the storage as a two's-complement [short]. *)
Definition word (o : ByteOrder) (u : union_sint16) : Z :=
  let n := unsigned_word o u in
  if n <? 2 ^ 15 then n else n - 2 ^ 16.

(** Writing the member [word]: the low and the high byte of the value's
    two's-complement pattern, each in its place. *)
Definition set_word (o : ByteOrder) (w : Z) : union_sint16 :=
  let n := w mod 2 ^ 16 in
  match o with
  | LittleEndian => {| byte_0 := n mod 256; byte_1 := n / 256 |}
  | BigEndian => {| byte_0 := n / 256; byte_1 := n mod 256 |}
  end.

(** The same bytes in the other order. *)
Definition swap_bytes (u : union_sint16) : union_sint16 :=
  {| byte_0 := byte_1 u; byte_1 := byte_0 u |}.

(** The byte that holds the sign bit of [word]. *)
Definition high_byte (o : ByteOrder) (u : union_sint16) : Z :=
  match o with
  | LittleEndian => byte_1 u
  | BigEndian => byte_0 u
  end.

End Sint16.

(** * Properties *)

(** ** Construction and the conversion constants *)

Module DriverFacts.

Import Cpp Driver.

(** The value the compiler gives [0.0845813406577f]: the binary32 number
    [11352315 * 2^-27]. *)
Lemma float_literal_tick_to_mm :
  float_literal 0.0845813406577 = Q2Qc (11352315 # 134217728).
Proof.
  unfold float_literal. apply Q2Qc_eq_iff.
  vm_compute. reflexivity.
Qed.

(** The value the compiler gives [0.00201384144460884f]: the binary32
    number [8649383 * 2^-32]. *)
Lemma float_literal_tick_to_rad :
  float_literal 0.00201384144460884 = Q2Qc (8649383 # 4294967296).
Proof.
  unfold float_literal. apply Q2Qc_eq_iff.
  vm_compute. reflexivity.
Qed.

(** A member function call leaves the two [const] members as they were. *)
Lemma invoke_keeps_constants (f : member_function) (k : Kobuki) :
  tick_to_mm (invoke f k) = tick_to_mm k /\
  tick_to_rad (invoke f k) = tick_to_rad k.
Proof.
  unfold invoke. cbn. split; reflexivity.
Qed.

(** So does any sequence of calls. *)
Lemma lifetime_keeps_constants (calls : list member_function) :
  forall k : Kobuki,
    tick_to_mm (lifetime calls k) = tick_to_mm k /\
    tick_to_rad (lifetime calls k) = tick_to_rad k.
Proof.
  unfold lifetime.
  induction calls as [| f calls IH]; intro k; cbn [fold_left].
  - split; reflexivity.
  - destruct (IH (invoke f k)) as [Hmm Hrad].
    destruct (invoke_keeps_constants f k) as [Hmm' Hrad'].
    split; congruence.
Qed.

(** C9: every freshly constructed [Kobuki] has [connected() = false],
    [isEnabled() = false], [is_running = false] and both last wheel velocity
    estimates equal to [0.0], whatever the storage held before: construction
    alone yields the Disconnected state, never a connected, running or
    enabled driver. *)
Theorem Kobuki_ctor_initial_state :
  forall raw : Kobuki,
    connected (Kobuki_ctor raw) = false /\
    isEnabled (Kobuki_ctor raw) = false /\
    is_running (Kobuki_ctor raw) = false /\
    last_velocity_left (Kobuki_ctor raw) = Q2Qc 0 /\
    last_velocity_right (Kobuki_ctor raw) = Q2Qc 0 /\
    connection_state (Kobuki_ctor raw) = Disconnected.
Proof.
  intro raw.
  unfold connected, isEnabled, connection_state.
  cbn [Kobuki_ctor is_connected is_enabled is_running
       last_velocity_left last_velocity_right].
  assert (Hzero : Q2Qc 0.0 = Q2Qc 0).
  { apply Q2Qc_eq_iff. reflexivity. }
  rewrite Hzero.
  repeat split.
Qed.

(** Each decimal lies strictly between two adjacent binary32 numbers, and so
    does the double nearest to it: whichever neighbour a compiler picks for
    the [f] literal, it is neither the decimal nor that double. *)
Lemma written_decimals_between_adjacent_floats :
  (Q2Qc (11352315 # 134217728) < Q2Qc 0.0845813406577
     /\ Q2Qc 0.0845813406577 < Q2Qc (11352316 # 134217728))%Qc /\
  (Q2Qc (11352315 # 134217728) < double_literal 0.0845813406577
     /\ double_literal 0.0845813406577 < Q2Qc (11352316 # 134217728))%Qc /\
  (Q2Qc (8649383 # 4294967296) < Q2Qc 0.00201384144460884
     /\ Q2Qc 0.00201384144460884 < Q2Qc (8649384 # 4294967296))%Qc /\
  (Q2Qc (8649383 # 4294967296) < double_literal 0.00201384144460884
     /\ double_literal 0.00201384144460884 < Q2Qc (8649384 # 4294967296))%Qc.
Proof.
  repeat split; vm_compute; reflexivity.
Qed.

(** C10, as stated, fails: the initialisers carry the [f] suffix, so what a
    constructed object holds is the single-precision neighbour of each
    decimal, strictly below the decimal itself and strictly below the double
    the decimal would denote without the suffix. *)
Lemma tick_constants_below_written_decimals :
  (tick_to_mm (Kobuki_ctor zeroed) < Q2Qc 0.0845813406577)%Qc /\
  (tick_to_rad (Kobuki_ctor zeroed) < Q2Qc 0.00201384144460884)%Qc /\
  (tick_to_mm (Kobuki_ctor zeroed) < double_literal 0.0845813406577)%Qc /\
  (tick_to_rad (Kobuki_ctor zeroed) < double_literal 0.00201384144460884)%Qc.
Proof.
  repeat split; vm_compute; reflexivity.
Qed.

(** C10, amended: for every [Kobuki] instance and after every sequence of
    member function calls, [tick_to_mm] is the single-precision value
    nearest to 0.0845813406577, which is [11352315 * 2^-27], and
    [tick_to_rad] the one nearest to 0.00201384144460884, which is
    [8649383 * 2^-32]; each lies below its decimal by less than half a unit
    in the last place of a float ([2^-28] and [2^-33]).  The constants are
    set once at construction and no call changes them. *)
Theorem tick_constants_fixed :
  forall (raw : Kobuki) (calls : list member_function),
    tick_to_mm (lifetime calls (Kobuki_ctor raw)) = Q2Qc (11352315 # 134217728) /\
    tick_to_rad (lifetime calls (Kobuki_ctor raw)) = Q2Qc (8649383 # 4294967296) /\
    (Q2Qc 0 < Q2Qc 0.0845813406577 - tick_to_mm (lifetime calls (Kobuki_ctor raw)))%Qc /\
    (Q2Qc 0.0845813406577 - tick_to_mm (lifetime calls (Kobuki_ctor raw))
       < Q2Qc (1 # 268435456))%Qc /\
    (Q2Qc 0 < Q2Qc 0.00201384144460884 - tick_to_rad (lifetime calls (Kobuki_ctor raw)))%Qc /\
    (Q2Qc 0.00201384144460884 - tick_to_rad (lifetime calls (Kobuki_ctor raw))
       < Q2Qc (1 # 8589934592))%Qc.
Proof.
  intros raw calls.
  destruct (lifetime_keeps_constants calls (Kobuki_ctor raw)) as [Hmm Hrad].
  rewrite Hmm, Hrad.
  cbn [Kobuki_ctor tick_to_mm tick_to_rad].
  rewrite float_literal_tick_to_mm, float_literal_tick_to_rad.
  repeat split; vm_compute; reflexivity.
Qed.

End DriverFacts.

(** ** Wheel encoder wrap-around *)

Module OdometryFacts.

Import Cpp Driver Odometry.

(** Equations between [double] quantities, division seen as a product. *)
Ltac double_ring := unfold double in *; unfold Qcdiv; ring.

(** The tick delta is the representative of [current - previous] modulo
    [2^16] that lies in [[-2^15, 2^15)]. *)
Lemma tick_delta_range (current previous : Z) :
  - 2 ^ 15 <= tick_delta current previous < 2 ^ 15.
Proof.
  unfold tick_delta.
  pose proof (Z.mod_pos_bound (current - previous) (2 ^ 16) ltac:(lia)) as Hd.
  destruct (((current - previous) mod 2 ^ 16) <? 2 ^ 15) eqn:Hlow.
  - apply Z.ltb_lt in Hlow. lia.
  - apply Z.ltb_ge in Hlow. lia.
Qed.

Lemma tick_delta_congruent (current previous : Z) :
  (tick_delta current previous - (current - previous)) mod 2 ^ 16 = 0.
Proof.
  unfold tick_delta.
  pose proof (Z.div_mod (current - previous) (2 ^ 16) ltac:(lia)) as Hdm.
  set (d := (current - previous) mod 2 ^ 16) in *.
  set (q := (current - previous) / 2 ^ 16) in *.
  destruct (d <? 2 ^ 15).
  - replace (d - (current - previous)) with ((- q) * 2 ^ 16) by lia.
    apply Z_mod_mult.
  - replace (d - 2 ^ 16 - (current - previous)) with ((- q - 1) * 2 ^ 16) by lia.
    apply Z_mod_mult.
Qed.

(** Whole turns of either counter do not show in the delta. *)
Lemma tick_delta_wraps (current previous m n : Z) :
  tick_delta (current + m * 2 ^ 16) (previous + n * 2 ^ 16)
  = tick_delta current previous.
Proof.
  unfold tick_delta.
  replace (current + m * 2 ^ 16 - (previous + n * 2 ^ 16))
    with (current - previous + (m - n) * 2 ^ 16) by lia.
  rewrite Z_mod_plus_full. reflexivity.
Qed.

(** A wheel that went [ticks] backwards covered the opposite distance. *)
Lemma wheel_distance_opp (k : Kobuki) (ticks : Z) :
  wheel_distance k (- ticks) = (- wheel_distance k ticks)%Qc.
Proof.
  unfold wheel_distance.
  assert (Hopp : Q2Qc (inject_Z (- ticks)) = (- Q2Qc (inject_Z ticks))%Qc).
  { apply Qc_is_canon. cbn [this Qcopp Q2Qc].
    rewrite !Qred_correct. unfold Qeq, inject_Z, Qopp. cbn. lia. }
  rewrite Hopp. double_ring.
Qed.

(** Reversing both wheels reverses the pose delta. *)
Lemma forward_opp (wheelbase d_left d_right : double) :
  forward wheelbase (- d_left)%Qc (- d_right)%Qc
  = pose_opp (forward wheelbase d_left d_right).
Proof.
  unfold forward, pose_opp. cbn [x y heading].
  f_equal; double_ring.
Qed.

(** C3: the tick delta is [(current - previous) mod 2^16] in its signed
    representative in [[-2^15, 2^15)]; a cycle from 65530 to 4 yields the
    pose delta of a cycle from 0 to 10, on either wheel and on both, and a
    cycle from 5 to 65531 yields the negative of that delta. *)
Theorem tick_delta_wraparound :
  (forall current previous : Z,
      - 2 ^ 15 <= tick_delta current previous < 2 ^ 15 /\
      (tick_delta current previous - (current - previous)) mod 2 ^ 16 = 0) /\
  tick_delta 4 65530 = 10 /\
  tick_delta 10 0 = 10 /\
  tick_delta 65531 5 = - 10 /\
  (forall (k : Kobuki) (previous current : Z),
      pose_delta k 65530 previous 4 current = pose_delta k 0 previous 10 current /\
      pose_delta k previous 65530 current 4 = pose_delta k previous 0 current 10) /\
  (forall k : Kobuki,
      pose_delta k 65530 65530 4 4 = pose_delta k 0 0 10 10 /\
      pose_delta k 5 5 65531 65531 = pose_opp (pose_delta k 0 0 10 10)).
Proof.
  assert (Hfwd : tick_delta 4 65530 = 10) by reflexivity.
  assert (Hstd : tick_delta 10 0 = 10) by reflexivity.
  assert (Hbwd : tick_delta 65531 5 = - 10) by reflexivity.
  split; [| split; [| split; [| split; [| split]]]]; try assumption.
  - intros current previous. split.
    + apply tick_delta_range.
    + apply tick_delta_congruent.
  - intros k previous current. unfold pose_delta.
    rewrite Hfwd, Hstd. split; reflexivity.
  - intro k. unfold pose_delta.
    rewrite Hfwd, Hstd, Hbwd. split.
    + reflexivity.
    + pose proof (wheel_distance_opp k 10) as Hback.
      change (Z.opp 10) with (- 10) in Hback.
      rewrite Hback. apply forward_opp.
Qed.

End OdometryFacts.

(** ** The word and the bytes of the 16-bit overlay *)

Module Sint16Facts.

Import Sint16.

(** Arithmetic on the two bytes: quotients and remainders by the constants
    256 and 65536 turned into linear facts. *)
Ltac bytes_arith :=
  unfold is_uchar in *; Z.div_mod_to_equations; lia.

(** The bytes of a word are bytes. *)
Lemma set_word_well_formed (o : ByteOrder) (w : Z) :
  well_formed (set_word o w).
Proof.
  unfold well_formed, set_word.
  change (2 ^ 16) with 65536.
  destruct o; cbn [byte_0 byte_1]; split; bytes_arith.
Qed.

(** The unsigned reading of the bytes of [w] is [w] modulo [2^16]. *)
Lemma unsigned_word_set_word (o : ByteOrder) (w : Z) :
  unsigned_word o (set_word o w) = w mod 2 ^ 16.
Proof.
  unfold unsigned_word, set_word.
  change (2 ^ 16) with 65536.
  destruct o; cbn [byte_0 byte_1]; bytes_arith.
Qed.

(** The unsigned reading of two bytes is a 16-bit number. *)
Lemma unsigned_word_range (o : ByteOrder) (u : union_sint16) :
  well_formed u -> 0 <= unsigned_word o u < 2 ^ 16.
Proof.
  unfold well_formed, unsigned_word, is_uchar.
  change (2 ^ 16) with 65536.
  intros [H0 H1]. destruct o; lia.
Qed.

(** X3: a [short] written to [word] is read back from [word] unchanged,
    in either byte order, and the two bytes it occupies are bytes. *)
Theorem word_set_word :
  forall (o : ByteOrder) (w : Z),
    - 2 ^ 15 <= w < 2 ^ 15 ->
    word o (set_word o w) = w /\ well_formed (set_word o w).
Proof.
  intros o w Hw.
  split; [| apply set_word_well_formed].
  unfold word. rewrite unsigned_word_set_word.
  change (2 ^ 15) with 32768 in *. change (2 ^ 16) with 65536.
  destruct (w mod 65536 <? 32768) eqn:Hlow.
  - apply Z.ltb_lt in Hlow. bytes_arith.
  - apply Z.ltb_ge in Hlow. bytes_arith.
Qed.

Lemma word_set_word_witness :
  (- 2 ^ 15 <= - 10 < 2 ^ 15) /\
  (word LittleEndian (set_word LittleEndian (- 10)) = - 10 /\
   well_formed (set_word LittleEndian (- 10))).
Proof.
  split; [lia | apply (word_set_word LittleEndian (- 10)); lia].
Defined.

(** X4: two bytes read as [word] give a value in the range of a [short],
    negative exactly when the high byte is 128 or more, and writing that
    value back to [word] restores the two bytes: the overlay loses nothing
    in either direction.  Read in the other byte order, the swapped bytes
    give the same word. *)
Theorem set_word_word :
  forall (o : ByteOrder) (u : union_sint16),
    well_formed u ->
    - 2 ^ 15 <= word o u < 2 ^ 15 /\
    (word o u < 0 <-> 128 <= high_byte o u) /\
    set_word o (word o u) = u /\
    word BigEndian (swap_bytes u) = word LittleEndian u.
Proof.
  intros o u Hu.
  pose proof (unsigned_word_range o u Hu) as Hn.
  assert (Hmod : word o u mod 2 ^ 16 = unsigned_word o u).
  { unfold word. destruct (unsigned_word o u <? 2 ^ 15).
    - apply Z.mod_small. exact Hn.
    - replace (unsigned_word o u - 2 ^ 16)
        with (unsigned_word o u + (- 1) * 2 ^ 16) by lia.
      rewrite Z_mod_plus_full. apply Z.mod_small. exact Hn. }
  destruct u as [b0 b1]. destruct Hu as [H0 H1]. cbn [byte_0 byte_1] in *.
  split; [| split; [| split]].
  - unfold word. change (2 ^ 15) with 32768 in *. change (2 ^ 16) with 65536 in *.
    destruct (unsigned_word o _ <? 32768) eqn:Hlow.
    + apply Z.ltb_lt in Hlow. lia.
    + apply Z.ltb_ge in Hlow. lia.
  - unfold word, high_byte, unsigned_word in *. unfold is_uchar in *.
    change (2 ^ 15) with 32768 in *. change (2 ^ 16) with 65536 in *.
    destruct o; cbn [byte_0 byte_1] in *.
    + destruct (b0 + 256 * b1 <? 32768) eqn:Hlow;
        [apply Z.ltb_lt in Hlow | apply Z.ltb_ge in Hlow]; lia.
    + destruct (b1 + 256 * b0 <? 32768) eqn:Hlow;
        [apply Z.ltb_lt in Hlow | apply Z.ltb_ge in Hlow]; lia.
  - unfold set_word. rewrite Hmod. unfold unsigned_word.
    destruct o; cbn [byte_0 byte_1]; f_equal; bytes_arith.
  - reflexivity.
Qed.

Lemma set_word_word_witness :
  well_formed {| byte_0 := 246; byte_1 := 255 |} /\
  (- 2 ^ 15 <= word LittleEndian {| byte_0 := 246; byte_1 := 255 |} < 2 ^ 15 /\
   (word LittleEndian {| byte_0 := 246; byte_1 := 255 |} < 0
      <-> 128 <= high_byte LittleEndian {| byte_0 := 246; byte_1 := 255 |}) /\
   set_word LittleEndian (word LittleEndian {| byte_0 := 246; byte_1 := 255 |})
     = {| byte_0 := 246; byte_1 := 255 |} /\
   word BigEndian (swap_bytes {| byte_0 := 246; byte_1 := 255 |})
     = word LittleEndian {| byte_0 := 246; byte_1 := 255 |}).
Proof.
  assert (Hu : well_formed {| byte_0 := 246; byte_1 := 255 |}).
  { unfold well_formed, is_uchar. cbn. lia. }
  split; [exact Hu |].
  apply (set_word_word LittleEndian {| byte_0 := 246; byte_1 := 255 |}).
  exact Hu.
Defined.

End Sint16Facts.
